(** * CORS middleware (cors.py): a shallow embedding and its properties

    The module is a WSGI filter with three operations: the constructor
    [CorsMiddleware.__init__] resolves the configuration,
    [process_request] gates an incoming request and [process_response]
    decorates an outgoing response.  [bool_from_string] parses the
    [hijack_options] flag.

    Python values are modelled as follows.
    - [str] is [string], a sequence of bytes; [strip], [split], [lower]
      and [upper] act on ASCII, as they do on a Python 2 byte string in
      the C locale.
    - A [dict] from strings to strings is a [gmap string string] and a
      [set] of strings a [gset string].  The order in which a set or a
      dict is iterated follows the interpreter's hash of the members; it
      is supplied by the class [HashOrder], and the theorems hold for
      every instance.
    - Raising an exception is modelled by the [result] monad.
    - A webob request is its header mapping and its method; a webob
      response is its status, its header list (assignment replaces, names
      compared without regard to case), its body and the request it
      answers, if known. *)

From Stdlib Require Import Ascii String.
From stdpp Require Import base option list strings gmap fin_maps pretty.

Local Open Scope string_scope.
Local Open Scope list_scope.

(** * Part I: the program *)

(** ** Python string primitives *)

Module Py.

(** [c.isspace()]: space, \t, \n, \v, \f, \r. *)
Definition isspace (c : ascii) : bool :=
  let n := nat_of_ascii c in
  (n =? 32)%nat || ((9 <=? n)%nat && (n <=? 13)%nat).

Definition isupper (c : ascii) : bool :=
  let n := nat_of_ascii c in (65 <=? n)%nat && (n <=? 90)%nat.

Definition islower (c : ascii) : bool :=
  let n := nat_of_ascii c in (97 <=? n)%nat && (n <=? 122)%nat.

Definition tolower (c : ascii) : ascii :=
  if isupper c then ascii_of_nat (nat_of_ascii c + 32) else c.

Definition toupper (c : ascii) : ascii :=
  if islower c then ascii_of_nat (nat_of_ascii c - 32) else c.

Fixpoint map_chars (f : ascii → ascii) (s : string) : string :=
  match s with
  | EmptyString => EmptyString
  | String c s' => String (f c) (map_chars f s')
  end.

(** [s.lower()] and [s.upper()]. *)
Definition lower : string → string := map_chars tolower.
Definition upper : string → string := map_chars toupper.

Fixpoint lstrip (s : string) : string :=
  match s with
  | EmptyString => EmptyString
  | String c s' => if isspace c then lstrip s' else s
  end.

Fixpoint rstrip (s : string) : string :=
  match s with
  | EmptyString => EmptyString
  | String c s' =>
      match rstrip s' with
      | EmptyString => if isspace c then EmptyString else String c EmptyString
      | t => String c t
      end
  end.

(** [s.strip()]: leading and trailing whitespace removed. *)
Definition strip (s : string) : string := rstrip (lstrip s).

(** [s.split()]: the maximal runs of non-whitespace characters. *)
Fixpoint split (s : string) : list string :=
  match s with
  | EmptyString => []
  | String c s' =>
      if isspace c then split s'
      else match s' with
           | EmptyString => [String c EmptyString]
           | String c' _ =>
               if isspace c' then String c EmptyString :: split s'
               else match split s' with
                    | t :: ts => String c t :: ts
                    | [] => [String c EmptyString]
                    end
           end
  end.

(** [s.split(sep)] for a one-character separator: every separator cuts,
    empty fields are kept, and the empty string yields one empty field. *)
Fixpoint split_on (sep : ascii) (s : string) : list string :=
  match s with
  | EmptyString => [EmptyString]
  | String c s' =>
      if Ascii.eqb c sep then EmptyString :: split_on sep s'
      else match split_on sep s' with
           | t :: ts => String c t :: ts
           | [] => [String c EmptyString]
           end
  end.

(** [sep.join(l)]. *)
Definition join (sep : string) (l : list string) : string :=
  String.concat sep l.

(** [sorted(l)] on strings, in byte order. *)
Fixpoint insert_sorted (x : string) (l : list string) : list string :=
  match l with
  | [] => [x]
  | y :: l' => if String.leb x y then x :: l else y :: insert_sorted x l'
  end.

Definition sorted (l : list string) : list string :=
  foldr insert_sorted [] l.

End Py.

(** ** Exceptions and Python objects *)

Inductive exn : Type :=
  | ValueError (msg : string)
  | KeyError (key : string).

Inductive result (A : Type) : Type :=
  | Ok (a : A)
  | Raise (e : exn).
Arguments Ok {A} a.
Arguments Raise {A} e.

#[global] Instance result_ret : MRet result := @Ok.
#[global] Instance result_bind : MBind result := λ A B f m,
  match m with
  | Ok a => f a
  | Raise e => Raise e
  end.

(** The values [bool_from_string] may be handed. *)
Inductive pyobj : Type :=
  | PyStr (s : string)
  | PyNone
  | PyBool (b : bool)
  | PyInt (z : Z).

(** [str(o)]. *)
Definition str (o : pyobj) : string :=
  match o with
  | PyStr s => s
  | PyNone => "None"
  | PyBool true => "True"
  | PyBool false => "False"
  | PyInt z => pretty z
  end.

(** ** Module constants *)

Definition DEFAULT_CONFIGURATION : gmap string string :=
  list_to_map
    [ ("allow_origins", "*");
      ("allow_methods", "GET, POST, PUT, DELETE, OPTIONS");
      ("allow_headers", "Origin, Content-type, Accept, X-Auth-Token");
      ("expose_headers", "etag, x-timestamp, x-trans-id, vary");
      ("allow_credentials", "false");
      ("hijack_options", "true");
      ("max_age", "3600") ].

Definition TRUE_STRINGS : list string := ["1"; "t"; "true"; "on"; "y"; "yes"].
Definition FALSE_STRINGS : list string := ["0"; "f"; "false"; "off"; "n"; "no"].

(** ** bool_from_string *)

(** The text of the [ValueError]; the translation hook [_], which the
    host application installs, is taken to return its argument. *)
Definition unrecognized_msg (subject : string) : string :=
  let acceptable :=
    Py.join ", " ((λ s, "'" +:+ s +:+ "'") <$>
                  Py.sorted (TRUE_STRINGS ++ FALSE_STRINGS)) in
  "Unrecognized value '" +:+ subject +:+ "', acceptable values are: "
  +:+ acceptable.

Definition bool_from_string (subject : pyobj) (strict : bool) : result bool :=
  let subject :=
    match subject with
    | PyStr s => s
    | _ => str subject
    end in
  let lowered := Py.lower (Py.strip subject) in
  if bool_decide (lowered ∈ TRUE_STRINGS) then Ok true
  else if bool_decide (lowered ∈ FALSE_STRINGS) then Ok false
  else if strict then Raise (ValueError (unrecognized_msg subject))
  else Ok false.

(** ** Iteration order of hashed containers

    Iterating over a [set] or a [dict] visits every member once, in an
    order that follows the hash of the members: it differs between
    interpreters and, with hash randomisation, between runs. *)

Class HashOrder : Type := {
  set_iter : gset string → list string;
  set_iter_perm : ∀ s, set_iter s ≡ₚ elements s;
  dict_iter : gmap string string → list (string * string);
  dict_iter_perm : ∀ d, dict_iter d ≡ₚ map_to_list d
}.

(** Two orders: the one in which stdpp enumerates a container, and the
    opposite one. *)
Definition trie_order : HashOrder :=
  {| set_iter := elements;
     set_iter_perm := λ s, reflexivity (elements s);
     dict_iter := map_to_list;
     dict_iter_perm := λ d, reflexivity (map_to_list d) |}.

Definition reverse_order : HashOrder :=
  {| set_iter := λ s, reverse (elements s);
     set_iter_perm := λ s, reverse_Permutation (elements s);
     dict_iter := λ d, reverse (map_to_list d);
     dict_iter_perm := λ d, reverse_Permutation (map_to_list d) |}.

(** ** webob requests and responses *)

(** [request.headers], keyed by header name, and [request.method]. *)
Record Request : Type := {
  req_headers : gmap string string;
  method : string
}.

(** A response header collection: the (name, value) pairs in order. *)
Abbreviation ResponseHeaders := (list (string * string)).

Record Response : Type := {
  status_int : Z;
  headers : ResponseHeaders;
  body : string;
  request : option Request
}.

(** Header names are compared without regard to case. *)
Definition same_name (k k' : string) : Prop := Py.lower k = Py.lower k'.

#[global] Instance same_name_dec k k' : Decision (same_name k k').
Proof. unfold same_name. apply _. Defined.

(** [headers[key] = value]: every pair under that name is dropped and
    the new pair is appended. *)
Definition headers_setitem (key value : string) (h : ResponseHeaders)
  : ResponseHeaders :=
  filter (λ kv, ¬ same_name kv.1 key) h ++ [(key, value)].

(** [headers.getall(key)]: the values under that name, in order. *)
Definition headers_getall (key : string) (h : ResponseHeaders) : list string :=
  (filter (λ kv, same_name kv.1 key) h).*2.

(** [headers.update(d)]: one assignment per item of the dict. *)
Definition headers_update `{HashOrder} (d : gmap string string)
    (h : ResponseHeaders) : ResponseHeaders :=
  foldl (λ acc kv, headers_setitem kv.1 kv.2 acc) h (dict_iter d).

Definition default_headerlist : ResponseHeaders :=
  [ ("Content-Type", "text/html; charset=UTF-8"); ("Content-Length", "0") ].

(** [webob.Response()]: status 200, no body, no originating request. *)
Definition webob_Response : Response :=
  {| status_int := 200; headers := default_headerlist; body := "";
     request := None |}.

(** [webob.exc.HTTPUnauthorized()]. *)
Definition HTTPUnauthorized : Response :=
  {| status_int := 401; headers := default_headerlist; body := "";
     request := None |}.

(** ** CorsMiddleware *)

Record CorsMiddleware : Type := {
  allowed_origins : gset string;
  allowed_methods : gset string;
  hijack_options : bool;
  cors_headers : gmap string string
}.

(** [conf[key]]. *)
Definition getitem (conf : gmap string string) (key : string) : result string :=
  match conf !! key with
  | Some v => Ok v
  | None => Raise (KeyError key)
  end.

(** The test of [process_response]:
    [not response.request or 'Origin' in response.request.headers]. *)
Definition cors_enabled (response : Response) : bool :=
  match response.(request) with
  | None => true
  | Some r => bool_decide ("Origin" ∈ dom r.(req_headers))
  end.

Section Middleware.
Context `{HashOrder}.

(** [CorsMiddleware.__init__], applied to its keyword arguments.  The
    closing call to the constructor of the base class, which keeps the
    wrapped application, is not part of this module. *)
Definition __init__ (kwargs : gmap string string) : result CorsMiddleware :=
  let conf := kwargs ∪ DEFAULT_CONFIGURATION in
  allow_origins ← getitem conf "allow_origins";
  let allowed_origins : gset string := list_to_set (Py.split allow_origins) in
  allow_methods ← getitem conf "allow_methods";
  let allowed_methods : gset string :=
    list_to_set ((λ method, Py.upper (Py.strip method)) <$>
                 Py.split_on "," allow_methods) in
  hijack ← getitem conf "hijack_options";
  hijack_options ← bool_from_string (PyStr hijack) false;
  let headers : gmap string string := ∅ in
  let headers :=
    <["access-control-allow-origin" :=
        Py.join " " (set_iter allowed_origins)]> headers in
  max_age ← getitem conf "max_age";
  let headers := <["access-control-max-age" := max_age]> headers in
  allow_methods' ← getitem conf "allow_methods";
  let headers := <["access-control-allow-methods" := allow_methods']> headers in
  allow_headers ← getitem conf "allow_headers";
  let headers := <["access-control-allow-headers" := allow_headers]> headers in
  expose_headers ← getitem conf "expose_headers";
  let headers := <["access-control-expose-headers" := expose_headers]> headers in
  allow_credentials ← getitem conf "allow_credentials";
  let headers :=
    <["access-control-allow-credentials" := allow_credentials]> headers in
  mret {| allowed_origins := allowed_origins;
          allowed_methods := allowed_methods;
          hijack_options := hijack_options;
          cors_headers := headers |}.

(** [CorsMiddleware.process_response(request, response)]; the first
    argument is [req] here, [request] being the response attribute.
    The response is updated in place and returned: the result stands
    for the object after the call. *)
Definition process_response (self : CorsMiddleware) (req : Request)
    (response : Response) : Response :=
  if cors_enabled response
  then {| status_int := response.(status_int);
          headers := headers_update self.(cors_headers) response.(headers);
          body := response.(body);
          request := response.(request) |}
  else response.

(** [CorsMiddleware.process_request(request)]; the result [None] is
    Python's implicit [None]: no decision, the pipeline goes on.  The
    test [if origin:] fails for a missing header and for an empty one. *)
Definition process_request (self : CorsMiddleware) (request : Request)
    : option Response :=
  match request.(req_headers) !! "Origin" with
  | Some origin =>
      if bool_decide (origin ≠ "") then
        if bool_decide (origin ∉ self.(allowed_origins))
           && bool_decide ("*" ∉ self.(allowed_origins))
        then Some HTTPUnauthorized
        else if bool_decide (request.(method) ∉ self.(allowed_methods))
        then Some HTTPUnauthorized
        else if self.(hijack_options)
                && bool_decide (request.(method) = "OPTIONS")
        then Some (process_response self request webob_Response)
        else None
      else None
  | None => None
  end.

End Middleware.

(** * Part II: vocabulary of the statements *)

(** The value [bool_from_string] looks up in the two token tuples. *)
Definition lowered (subject : pyobj) : string :=
  Py.lower (Py.strip (str subject)).

(** The names of the response headers the middleware emits. *)
Definition CORS_HEADER_NAMES : list string :=
  [ "access-control-allow-origin"; "access-control-max-age";
    "access-control-allow-methods"; "access-control-allow-headers";
    "access-control-expose-headers"; "access-control-allow-credentials" ].

(** The value of an option after the merge, as the specification words
    it: a supplied value replaces the default, as a whole. *)
Definition merged (kwargs : gmap string string) (key : string) : string :=
  match kwargs !! key with
  | Some v => v
  | None => default "" (DEFAULT_CONFIGURATION !! key)
  end.

(** The instance [__init__] builds, written out. *)
Definition policy `{HashOrder} (kwargs : gmap string string) : CorsMiddleware :=
  let origins : gset string :=
    list_to_set (Py.split (merged kwargs "allow_origins")) in
  {| allowed_origins := origins;
     allowed_methods :=
       list_to_set ((λ m, Py.upper (Py.strip m)) <$>
                    Py.split_on "," (merged kwargs "allow_methods"));
     hijack_options :=
       bool_decide (lowered (PyStr (merged kwargs "hijack_options"))
                    ∈ TRUE_STRINGS);
     cors_headers :=
       list_to_map
         [ ("access-control-allow-credentials", merged kwargs "allow_credentials");
           ("access-control-expose-headers", merged kwargs "expose_headers");
           ("access-control-allow-headers", merged kwargs "allow_headers");
           ("access-control-allow-methods", merged kwargs "allow_methods");
           ("access-control-max-age", merged kwargs "max_age");
           ("access-control-allow-origin", Py.join " " (set_iter origins)) ] |}.

(** The response's originating request is unknown, or it carries an
    [Origin] header. *)
Definition cors_applies (response : Response) : Prop :=
  response.(request) = None ∨
  ∃ r, response.(request) = Some r ∧ is_Some (r.(req_headers) !! "Origin").

(** The origin is neither listed nor covered by the wildcard. *)
Definition unlisted (self : CorsMiddleware) (origin : string) : Prop :=
  (origin ∉ allowed_origins self) ∧ ("*" ∉ allowed_origins self).

(** The pair [kv] goes under one of the names [ks]. *)
Definition named (ks : list string) (kv : string * string) : Prop :=
  Exists (same_name kv.1) ks.

#[global] Instance named_dec ks kv : Decision (named ks kv).
Proof. unfold named. apply _. Defined.

(** One step of [headers_update]. *)
Definition assign (acc : ResponseHeaders) (kv : string * string)
  : ResponseHeaders :=
  headers_setitem kv.1 kv.2 acc.

(** The names of the dict differ pairwise, case apart. *)
Definition distinct_names `{HashOrder} (d : gmap string string) : Prop :=
  NoDup (Py.lower <$> (dict_iter d).*1).

(** The text holds whitespace only, and the text holds none. *)
Fixpoint all_space (s : string) : bool :=
  match s with
  | EmptyString => true
  | String c s' => Py.isspace c && all_space s'
  end.

Fixpoint no_space (s : string) : bool :=
  match s with
  | EmptyString => true
  | String c s' => negb (Py.isspace c) && no_space s'
  end.

(** The options [__init__] reads. *)
Definition OPTION_NAMES : list string :=
  [ "allow_origins"; "allow_methods"; "hijack_options"; "max_age";
    "allow_headers"; "expose_headers"; "allow_credentials" ].


(** ** Inputs of the concrete runs *)

Definition scenario_kwargs : gmap string string :=
  list_to_map [ ("allow_origins", "http://a.example http://b.example");
                ("allow_methods", "GET,POST") ].

Definition mk_request (origin : option string) (m : string) : Request :=
  {| req_headers :=
       match origin with
       | Some o => {[ "Origin" := o ]}
       | None => ∅
       end;
     method := m |}.

Definition scenario_request : Request :=
  mk_request (Some "http://a.example") "GET".

(** A downstream response that remembers the request it answers. *)
Definition response_to (r : Request) : Response :=
  {| status_int := 200; headers := default_headerlist; body := "ok";
     request := Some r |}.

(** The instances built without any option and from [scenario_kwargs],
    with the iteration order fixed. *)
Definition default_policy : CorsMiddleware := @policy trie_order ∅.
Definition scenario_policy : CorsMiddleware := @policy trie_order scenario_kwargs.

(** * Part III: properties *)

(** Closed decidable goals are settled by evaluation. *)
Ltac by_compute := apply (bool_decide_unpack _); vm_compute; exact I.

(** ** Characters and strings *)

Example split_ex : Py.split "  a  b c " = ["a"; "b"; "c"].
Proof. reflexivity. Qed.

Example split_on_ex :
  Py.split_on "," "GET, POST,,x" = ["GET"; " POST"; ""; "x"].
Proof. reflexivity. Qed.

Example split_tab_newline_ex :
  Py.split (String (ascii_of_nat 9) "a" +:+ String (ascii_of_nat 10) "b")
  = ["a"; "b"].
Proof. reflexivity. Qed.

Example split_blank_ex : Py.split "   " = [] ∧ Py.split_on "," "" = [""].
Proof. split; reflexivity. Qed.

Example strip_ex : Py.strip "  a b  " = "a b".
Proof. reflexivity. Qed.

Example upper_ex : Py.upper "gEt-1" = "GET-1".
Proof. reflexivity. Qed.

Example sorted_ex : Py.sorted ["b"; "a"; "ab"; "1"] = ["1"; "a"; "ab"; "b"].
Proof. reflexivity. Qed.

Example bool_from_string_strict_ex :
  bool_from_string (PyStr "nope") true =
  Raise (ValueError "Unrecognized value 'nope', acceptable values are: '0', '1', 'f', 'false', 'n', 'no', 'off', 'on', 't', 'true', 'y', 'yes'").
Proof. by vm_compute. Qed.

Example bool_from_string_int_ex : bool_from_string (PyInt 1) true = Ok true.
Proof. by vm_compute. Qed.

Lemma toupper_idemp c : Py.toupper (Py.toupper c) = Py.toupper c.
Proof. by destruct c as [[] [] [] [] [] [] [] []]. Qed.

Lemma toupper_tolower c : Py.toupper (Py.tolower c) = Py.toupper c.
Proof. by destruct c as [[] [] [] [] [] [] [] []]. Qed.

Lemma upper_idemp s : Py.upper (Py.upper s) = Py.upper s.
Proof.
  induction s as [|c s IH]; [done|].
  cbn. by rewrite toupper_idemp, IH.
Qed.

Lemma upper_lower s : Py.upper (Py.lower s) = Py.upper s.
Proof.
  induction s as [|c s IH]; [done|].
  cbn. by rewrite toupper_tolower, IH.
Qed.

(** A token of [split] is never empty. *)
Lemma split_nonempty s : "" ∉ Py.split s.
Proof.
  induction s as [|c s IH]; cbn; [apply not_elem_of_nil|].
  destruct (Py.isspace c); [done|].
  destruct s as [|c' s']; [by apply not_elem_of_cons|].
  destruct (Py.isspace c'); [by apply not_elem_of_cons|].
  destruct (Py.split (String c' s')) as [|t ts].
  - by apply not_elem_of_cons.
  - apply not_elem_of_cons in IH as [_ IH]. by apply not_elem_of_cons.
Qed.

(** The fields of [split_on] joined by the separator give the text
    back. *)
Lemma split_on_cons sep s : ∃ t ts, Py.split_on sep s = t :: ts.
Proof.
  destruct s as [|c s]; cbn; [by eexists _, _|].
  destruct (Ascii.eqb c sep); [by eexists _, _|].
  destruct (Py.split_on sep s); by eexists _, _.
Qed.

Lemma join_cons sep x y l :
  Py.join sep (x :: y :: l) = x +:+ sep +:+ Py.join sep (y :: l).
Proof. reflexivity. Qed.

Lemma join_split_on sep s :
  Py.join (String sep "") (Py.split_on sep s) = s.
Proof.
  induction s as [|c s IH]; [done|]. cbn [Py.split_on].
  destruct (split_on_cons sep s) as (t & ts & Hs). rewrite Hs in *.
  destruct (Ascii.eqb_spec c sep) as [->|_].
  - rewrite join_cons, IH. reflexivity.
  - destruct ts as [|t' ts].
    + cbn in *. by rewrite IH.
    + rewrite join_cons in *. by rewrite <-IH.
Qed.

(** ** Lists *)

Section Filter.
Context {A : Type} (P Q : A → Prop).
Context `{!∀ x, Decision (P x)} `{!∀ x, Decision (Q x)}.

Lemma filter_ext_in (xs : list A) :
  (∀ x, x ∈ xs → P x ↔ Q x) → filter P xs = filter Q xs.
Proof.
  induction xs as [|x xs IH]; intros HPQ; [done|].
  rewrite !filter_cons.
  rewrite IH by (intros y Hy; apply HPQ; by right).
  destruct (decide (P x)) as [HP|HP], (decide (Q x)) as [HQ|HQ]; try done.
  - destruct HQ. apply HPQ; [left|done].
  - destruct HP. apply HPQ; [left|done].
Qed.

Lemma filter_none (xs : list A) :
  (∀ x, x ∈ xs → ¬ P x) → filter P xs = [].
Proof.
  induction xs as [|x xs IH]; intros HP; [done|].
  rewrite filter_cons, decide_False by (apply HP; left).
  apply IH. intros y Hy. apply HP. by right.
Qed.

Lemma filter_all (xs : list A) :
  (∀ x, x ∈ xs → P x) → filter P xs = xs.
Proof.
  induction xs as [|x xs IH]; intros HP; [done|].
  rewrite filter_cons, decide_True by (apply HP; left).
  f_equal. apply IH. intros y Hy. apply HP. by right.
Qed.

End Filter.

(** ** The header collection *)

Section Headers.
Implicit Types (h : ResponseHeaders) (l : list (string * string)).

(** Assigning a run of pairs: what was there under other names stays in
    place, and what comes after it depends on the run alone. *)
Lemma foldl_assign h l :
  foldl assign h l = filter (λ kv, ¬ named l.*1 kv) h ++ foldl assign [] l.
Proof.
  revert h. induction l as [|x l IH]; intros h.
  - cbn. rewrite app_nil_r. symmetry. apply filter_all.
    intros kv _. unfold named. cbn. by intros ?%Exists_nil.
  - cbn [foldl]. rewrite IH, (IH (assign [] x)).
    unfold assign at 1 3, headers_setitem.
    rewrite filter_nil, app_nil_l, filter_app, <-app_assoc. f_equal.
    rewrite list_filter_filter. apply filter_ext_in. intros kv _.
    unfold named. rewrite fmap_cons, Exists_cons. tauto.
Qed.

Lemma foldl_assign_named h l kv :
  kv ∈ foldl assign h l → kv ∈ h ∨ named l.*1 kv.
Proof.
  revert h. induction l as [|x l IH]; intros h; cbn [foldl]; [by left|].
  intros [Hin|Hin]%IH.
  - unfold assign, headers_setitem in Hin.
    apply elem_of_app in Hin
      as [Hin%list_elem_of_filter|Hin%list_elem_of_singleton].
    + left. apply Hin.
    + right. subst kv. unfold named. rewrite fmap_cons.
      apply Exists_cons. by left.
  - right. unfold named. rewrite fmap_cons. apply Exists_cons. by right.
Qed.

(** With names that differ pairwise, the run is appended as it is. *)
Lemma foldl_assign_NoDup l :
  NoDup (Py.lower <$> l.*1) → foldl assign [] l = l.
Proof.
  induction l as [|x l IH] using rev_ind; intros Hnd; [done|].
  rewrite foldl_app. cbn.
  rewrite !fmap_app in Hnd. apply NoDup_app in Hnd as (Hl & Hx & _).
  rewrite IH by done. unfold assign, headers_setitem.
  destruct x as [k v]. cbn in *. f_equal.
  apply filter_all. intros [k' v'] Hin Hsame. cbn in Hsame.
  apply (Hx (Py.lower k')).
  - apply list_elem_of_fmap. exists k'. split; [done|].
    apply list_elem_of_fmap. by exists (k', v').
  - rewrite Hsame. set_solver.
Qed.

Lemma filter_same_name l k v :
  NoDup (Py.lower <$> l.*1) → (k, v) ∈ l →
  filter (λ kv, same_name kv.1 k) l = [(k, v)].
Proof.
  induction l as [|[k' v'] l IH]; intros Hnd Hin.
  - by apply elem_of_nil in Hin.
  - cbn in Hnd. apply NoDup_cons in Hnd as [Hk' Hnd].
    apply elem_of_cons in Hin as [Heq|Hin].
    + inversion Heq; subst k' v'.
      rewrite filter_cons_True by done. f_equal.
      apply filter_none. intros [k2 v2] Hin2 Hsame. cbn in Hsame.
      apply Hk'. rewrite <-Hsame.
      apply list_elem_of_fmap. exists k2. split; [done|].
      apply list_elem_of_fmap. by exists (k2, v2).
    + rewrite filter_cons_False; [by apply IH|].
      cbn. intros Hsame. apply Hk'. unfold same_name in Hsame. rewrite Hsame.
      apply list_elem_of_fmap. exists k. split; [done|].
      apply list_elem_of_fmap. by exists (k, v).
Qed.

End Headers.

Section Update.
Context `{HashOrder}.
Implicit Types (h : ResponseHeaders) (d : gmap string string).

Lemma headers_update_eq d h :
  headers_update d h =
  filter (λ kv, ¬ named (dict_iter d).*1 kv) h ++ foldl assign [] (dict_iter d).
Proof. apply foldl_assign. Qed.

(** Updating twice from the same dict changes nothing more. *)
Lemma headers_update_idemp d h :
  headers_update d (headers_update d h) = headers_update d h.
Proof.
  rewrite !headers_update_eq, filter_app, <-app_assoc. f_equal.
  - rewrite list_filter_filter. apply list_filter_iff. tauto.
  - rewrite filter_none; [done|].
    intros kv [Hin|Hin]%foldl_assign_named; [|tauto].
    by apply elem_of_nil in Hin.
Qed.

Lemma headers_update_distinct d h :
  distinct_names d →
  headers_update d h =
  filter (λ kv, ¬ named (dict_iter d).*1 kv) h ++ dict_iter d.
Proof. intros Hd. by rewrite headers_update_eq, foldl_assign_NoDup. Qed.

(** After the update a name of the dict has the dict's value, once. *)
Lemma headers_getall_update d h k v :
  distinct_names d → d !! k = Some v →
  headers_getall k (headers_update d h) = [v].
Proof.
  intros Hd Hk. unfold headers_getall.
  assert ((k, v) ∈ dict_iter d) as Hin.
  { rewrite dict_iter_perm. by apply elem_of_map_to_list. }
  rewrite headers_update_distinct, filter_app by done.
  rewrite (filter_same_name _ k v Hd Hin).
  rewrite list_filter_filter, filter_none; [done|].
  intros [k' v'] _ [Hsame Hnot]. apply Hnot. unfold named. cbn in *.
  apply Exists_exists. exists k. split; [|done].
  apply list_elem_of_fmap. by exists (k, v).
Qed.

(** A name that is none of the dict's keeps its values. *)
Lemma headers_getall_update_other d h k :
  (∀ k', k' ∈ dom d → ¬ same_name k' k) →
  headers_getall k (headers_update d h) = headers_getall k h.
Proof.
  intros Hother. unfold headers_getall.
  assert (∀ kv, named (dict_iter d).*1 kv → ¬ same_name kv.1 k) as Hnamed.
  { intros kv (k' & Hk' & Hsame)%Exists_exists Hk.
    apply list_elem_of_fmap in Hk' as ([k2 v2] & -> & Hin). cbn in *.
    rewrite dict_iter_perm in Hin. apply elem_of_map_to_list in Hin.
    apply (Hother k2); [by apply elem_of_dom|].
    unfold same_name in *. congruence. }
  rewrite headers_update_eq, filter_app.
  rewrite (filter_none _ (foldl _ _ _)), app_nil_r.
  - rewrite list_filter_filter. f_equal. apply list_filter_iff.
    intros kv. split; [tauto|]. intros Hk. split; [done|].
    intros Hn. by apply (Hnamed kv).
  - intros kv [Hin|Hin]%foldl_assign_named; [by apply elem_of_nil in Hin|].
    by apply Hnamed.
Qed.

End Update.

(** ** Configuration resolution *)

Lemma getitem_conf kwargs key :
  is_Some (DEFAULT_CONFIGURATION !! key) →
  getitem (kwargs ∪ DEFAULT_CONFIGURATION) key = Ok (merged kwargs key).
Proof.
  intros [v0 Hv0]. unfold getitem, merged.
  rewrite lookup_union, Hv0.
  by destruct (kwargs !! key).
Qed.

Lemma bool_from_string_eq subject strict :
  bool_from_string subject strict =
  if bool_decide (lowered subject ∈ TRUE_STRINGS) then Ok true
  else if bool_decide (lowered subject ∈ FALSE_STRINGS) then Ok false
  else if strict then Raise (ValueError (unrecognized_msg (str subject)))
  else Ok false.
Proof. by destruct subject. Qed.

Lemma bool_from_string_nonstrict subject :
  bool_from_string subject false =
  Ok (bool_decide (lowered subject ∈ TRUE_STRINGS)).
Proof. rewrite bool_from_string_eq. by repeat case_bool_decide. Qed.

Lemma true_false_disjoint s : s ∈ TRUE_STRINGS → s ∈ FALSE_STRINGS → False.
Proof.
  unfold TRUE_STRINGS, FALSE_STRINGS.
  rewrite !elem_of_cons, !elem_of_nil. intuition congruence.
Qed.

Section Policy.
Context `{HashOrder}.

(** [__init__] never raises, and builds [policy kwargs]. *)
Lemma init_policy kwargs : __init__ kwargs = Ok (policy kwargs).
Proof.
  unfold __init__.
  rewrite !getitem_conf by (by eexists).
  cbn [mbind result_bind].
  rewrite bool_from_string_nonstrict.
  reflexivity.
Qed.

Lemma policy_cors_items kwargs :
  dict_iter (cors_headers (policy kwargs)) ≡ₚ
  [ ("access-control-allow-credentials", merged kwargs "allow_credentials");
    ("access-control-expose-headers", merged kwargs "expose_headers");
    ("access-control-allow-headers", merged kwargs "allow_headers");
    ("access-control-allow-methods", merged kwargs "allow_methods");
    ("access-control-max-age", merged kwargs "max_age");
    ("access-control-allow-origin",
     Py.join " " (set_iter (allowed_origins (policy kwargs)))) ].
Proof.
  rewrite dict_iter_perm. apply map_to_list_to_map.
  cbn. by_compute.
Qed.

Lemma policy_distinct_names kwargs :
  distinct_names (cors_headers (policy kwargs)).
Proof.
  unfold distinct_names. rewrite policy_cors_items.
  cbn. by_compute.
Qed.

Lemma policy_cors_dom kwargs name :
  name ∈ dom (cors_headers (policy kwargs)) ↔ name ∈ CORS_HEADER_NAMES.
Proof.
  unfold policy, cors_headers. rewrite dom_list_to_map_L, elem_of_list_to_set.
  cbn. unfold CORS_HEADER_NAMES. rewrite !elem_of_cons, !elem_of_nil. tauto.
Qed.

Lemma policy_methods_upper kwargs m :
  m ∈ allowed_methods (policy kwargs) → Py.upper m = m.
Proof.
  unfold policy, allowed_methods. rewrite elem_of_list_to_set.
  intros (t & -> & _)%list_elem_of_fmap. apply upper_idemp.
Qed.

(** The empty string is never a listed origin. *)
Lemma policy_origins_nonempty kwargs : "" ∉ allowed_origins (policy kwargs).
Proof.
  unfold policy, allowed_origins. rewrite elem_of_list_to_set.
  apply split_nonempty.
Qed.

End Policy.

(** ** The response phase *)

Section Decorator.
Context `{HashOrder}.
Implicit Types (self : CorsMiddleware) (req : Request) (response : Response).

Lemma cors_enabled_iff response :
  cors_enabled response = true ↔ cors_applies response.
Proof.
  unfold cors_enabled, cors_applies.
  destruct (request response) as [r|]; [|by intuition].
  rewrite bool_decide_eq_true, elem_of_dom. split.
  - intros Hr. right. by exists r.
  - by intros [|(? & [= <-] & ?)].
Qed.

Lemma process_response_inject self req response :
  cors_applies response →
  process_response self req response =
  {| status_int := response.(status_int);
     headers := headers_update self.(cors_headers) response.(headers);
     body := response.(body);
     request := response.(request) |}.
Proof.
  intros Hc%cors_enabled_iff. unfold process_response. by rewrite Hc.
Qed.

Lemma process_response_skip self req response :
  ¬ cors_applies response → process_response self req response = response.
Proof.
  rewrite <-cors_enabled_iff. intros Hc%not_true_is_false.
  unfold process_response. by rewrite Hc.
Qed.

Lemma process_response_frame self req response :
  (process_response self req response).(status_int) = response.(status_int) ∧
  (process_response self req response).(body) = response.(body) ∧
  (process_response self req response).(request) = response.(request).
Proof. unfold process_response. by destruct (cors_enabled response). Qed.

(** On a response that the middleware built by [__init__] decorates,
    each of the six names has its precomputed value and no other. *)
Lemma policy_decorates kwargs req response name :
  cors_applies response → name ∈ CORS_HEADER_NAMES →
  ∃ v, (policy kwargs).(cors_headers) !! name = Some v ∧
       headers_getall name
         (process_response (policy kwargs) req response).(headers) = [v].
Proof.
  intros Hc Hname. rewrite process_response_inject by done. cbn [headers].
  apply (policy_cors_dom kwargs), elem_of_dom in Hname.
  destruct Hname as [v Hv]. exists v. split; [done|].
  apply headers_getall_update; [apply policy_distinct_names|done].
Qed.

(** C10: the result of [process_response] does not depend on its
    [request] argument: two calls that differ in that argument alone
    return the same response, the decision being taken on the
    response's own [request] attribute: a response that answers a
    request without [Origin] is left alone even when the argument
    carries one, and a response with no originating request is
    decorated even when the argument carries none. *)
Theorem process_response_ignores_request self req1 req2 response :
  process_response self req1 response = process_response self req2 response ∧
  (∀ r, response.(request) = Some r → r.(req_headers) !! "Origin" = None →
        process_response self req1 response = response) ∧
  (response.(request) = None →
   (process_response self req1 response).(headers)
   = headers_update self.(cors_headers) response.(headers)).
Proof.
  split; [reflexivity|]. split.
  - intros r Hr Hno. apply process_response_skip.
    intros [Hnone|(r' & Hr' & Hsome)]; [congruence|].
    rewrite Hr in Hr'. injection Hr' as <-. rewrite Hno in Hsome.
    by destruct Hsome.
  - intros Hnone. rewrite process_response_inject; [done|by left].
Qed.

(** C6: [process_response] is idempotent: run a second time on its own
    result it returns that result, so every header has the values one
    run gave it; the six names are assigned, not appended to. *)
Theorem process_response_idempotent self req1 req2 response :
  process_response self req2 (process_response self req1 response) =
  process_response self req1 response.
Proof.
  unfold process_response.
  destruct (cors_enabled response) eqn:Hc; [|by rewrite Hc].
  unfold cors_enabled in *. cbn. rewrite Hc.
  by rewrite headers_update_idemp.
Qed.

(** C4: for an instance built by [__init__], [process_response] assigns
    the six precomputed headers exactly when the response's originating
    request is unknown or carries an [Origin] header: each of the six
    names then has its precomputed value and nothing else, every other
    header keeps its values, and status, body and originating request
    are as before; when the originating request is known and has no
    [Origin] header the response comes back unchanged. *)
Theorem process_response_decision kwargs self req response :
  __init__ kwargs = Ok self →
  (cors_applies response →
     (∀ name, name ∈ CORS_HEADER_NAMES →
        ∃ v, self.(cors_headers) !! name = Some v ∧
             headers_getall name (process_response self req response).(headers)
             = [v]) ∧
     (∀ name, (∀ k, k ∈ CORS_HEADER_NAMES → ¬ same_name k name) →
        headers_getall name (process_response self req response).(headers)
        = headers_getall name response.(headers)) ∧
     (process_response self req response).(status_int) = response.(status_int) ∧
     (process_response self req response).(body) = response.(body) ∧
     (process_response self req response).(request) = response.(request)) ∧
  ((∃ r, response.(request) = Some r ∧ r.(req_headers) !! "Origin" = None) →
     process_response self req response = response).
Proof.
  rewrite init_policy. intros [= <-]. split.
  - intros Hc. split; [intros name; by apply policy_decorates|].
    rewrite process_response_inject by done. cbn [headers].
    repeat split.
    intros name Hother. apply headers_getall_update_other.
    intros k Hk. apply policy_cors_dom in Hk. by apply Hother.
  - intros (r & Hr & Hno). apply process_response_skip.
    intros [Hnone|(r' & Hr' & Hsome)]; [congruence|].
    rewrite Hr in Hr'. injection Hr' as <-. rewrite Hno in Hsome.
    by destruct Hsome.
Qed.

End Decorator.

(** ** The request phase *)

Section Gate.
Context `{HashOrder}.
Implicit Types (self : CorsMiddleware) (request : Request).

(** An [Origin] header with an empty value is falsy: the request is
    handled like one without the header. *)
Lemma process_request_empty_origin self request :
  request.(req_headers) !! "Origin" = Some "" →
  process_request self request = None.
Proof. unfold process_request. by intros ->. Qed.

(** The four outcomes for a request with a non-empty [Origin]. *)
Lemma process_request_cases self request origin :
  request.(req_headers) !! "Origin" = Some origin → origin ≠ "" →
  process_request self request =
  if decide (unlisted self origin) then Some HTTPUnauthorized
  else if decide (request.(method) ∉ self.(allowed_methods))
       then Some HTTPUnauthorized
  else if decide (self.(hijack_options) = true ∧ request.(method) = "OPTIONS")
       then Some (process_response self request webob_Response)
  else None.
Proof.
  intros Ho Hne. unfold process_request, unlisted. rewrite Ho.
  rewrite bool_decide_true by done.
  destruct (hijack_options self);
    repeat (case_decide || case_bool_decide); cbn; try done;
    exfalso; intuition congruence.
Qed.

(** C3: a request without an [Origin] header gets no decision ([None],
    the pipeline goes on), whatever its method and whatever the
    configuration. *)
Theorem process_request_no_origin self request :
  request.(req_headers) !! "Origin" = None →
  process_request self request = None.
Proof. unfold process_request. by intros ->. Qed.

(** C1, amended: for a request whose [Origin] header is not empty,
    [process_request] returns a 401 response if and only if the origin
    is unlisted (not a member of [allowed_origins], and no ["*"] there)
    or the method is not a member of [allowed_methods]; in both cases
    the response is the same [HTTPUnauthorized()], and an unlisted
    origin is rejected whatever the method. *)
Theorem process_request_unauthorized_iff self request origin :
  request.(req_headers) !! "Origin" = Some origin → origin ≠ "" →
  ((∃ r, process_request self request = Some r ∧ r.(status_int) = 401%Z) ↔
   unlisted self origin ∨ request.(method) ∉ self.(allowed_methods)) ∧
  (unlisted self origin ∨ request.(method) ∉ self.(allowed_methods) →
   process_request self request = Some HTTPUnauthorized) ∧
  (unlisted self origin →
   ∀ m, process_request self
          {| req_headers := request.(req_headers); method := m |}
        = Some HTTPUnauthorized).
Proof.
  intros Ho Hne.
  assert (unlisted self origin ∨ request.(method) ∉ self.(allowed_methods) →
          process_request self request = Some HTTPUnauthorized) as Hrej.
  { intros Hc. rewrite (process_request_cases _ _ origin) by done.
    repeat case_decide; try done; tauto. }
  split; [split|split].
  - intros (r & Hr & H401).
    rewrite (process_request_cases _ _ origin) in Hr by done.
    repeat case_decide; try tauto; [|done].
    injection Hr as <-.
    by rewrite (proj1 (process_response_frame _ _ _)) in H401.
  - intros Hc. exists HTTPUnauthorized. by rewrite Hrej.
  - done.
  - intros Hu m. rewrite (process_request_cases _ _ origin) by done.
    by rewrite decide_True.
Qed.

End Gate.

Section Preflight.
Context `{HashOrder}.
Implicit Types (self : CorsMiddleware) (request : Request).

(** An origin the instance allows, for the purposes of [process_request]:
    listed, or not empty and covered by the wildcard.  A listed origin
    is never empty. *)
Lemma allowed_origin_nonempty kwargs origin :
  origin ∈ allowed_origins (policy kwargs)
  ∨ (origin ≠ "" ∧ "*" ∈ allowed_origins (policy kwargs)) →
  origin ≠ "" ∧ ¬ unlisted (policy kwargs) origin.
Proof.
  intros [Hin|[Hne Hstar]]; (split; [|unfold unlisted; tauto]); [|done].
  intros ->. by apply (policy_origins_nonempty kwargs).
Qed.

(** C2, amended: for an instance built by [__init__] and a request whose
    [Origin] is listed, or is not empty with the wildcard listed, whose
    method is ["OPTIONS"] and allowed, with [hijack_options] set,
    [process_request] returns [process_response] applied to a fresh
    [webob.Response()]: status 200, empty body, and each of the six CORS
    header names with its precomputed value. *)
Theorem process_request_preflight kwargs self request origin :
  __init__ kwargs = Ok self →
  request.(req_headers) !! "Origin" = Some origin →
  origin ∈ allowed_origins self ∨ (origin ≠ "" ∧ "*" ∈ allowed_origins self) →
  request.(method) ∈ allowed_methods self →
  request.(method) = "OPTIONS" →
  hijack_options self = true →
  ∃ r, process_request self request = Some r ∧
       r = process_response self request webob_Response ∧
       r.(status_int) = 200%Z ∧ r.(body) = "" ∧
       ∀ name, name ∈ CORS_HEADER_NAMES →
         ∃ v, self.(cors_headers) !! name = Some v ∧
              headers_getall name r.(headers) = [v].
Proof.
  rewrite init_policy. intros [= <-] Ho Hallowed Hm Hopt Hhij.
  apply allowed_origin_nonempty in Hallowed as [Hne Hlisted].
  exists (process_response (policy kwargs) request webob_Response).
  split; [|split; [done|]].
  - rewrite (process_request_cases _ _ origin) by done.
    rewrite decide_False by done.
    rewrite decide_False by tauto. by rewrite decide_True.
  - destruct (process_response_frame (policy kwargs) request webob_Response)
      as (-> & -> & _).
    split; [done|]. split; [done|].
    intros name. apply policy_decorates. by left.
Qed.

(** C5, amended: the members of [allowed_methods] are uppercased when
    the instance is built, and the method of a request is compared as
    it was received; so a request whose [Origin] is listed, or is not
    empty with the wildcard listed, and whose method is the lowercase
    spelling of an allowed method (and so differs from it), is
    rejected. *)
Theorem process_request_lowercase_method kwargs self :
  __init__ kwargs = Ok self →
  (∀ m, m ∈ allowed_methods self → Py.upper m = m) ∧
  (∀ request origin,
     request.(req_headers) !! "Origin" = Some origin →
     origin ∈ allowed_origins self
     ∨ (origin ≠ "" ∧ "*" ∈ allowed_origins self) →
     (process_request self request = Some HTTPUnauthorized ↔
      request.(method) ∉ allowed_methods self) ∧
     (∀ allowed, allowed ∈ allowed_methods self →
        request.(method) = Py.lower allowed → request.(method) ≠ allowed →
        process_request self request = Some HTTPUnauthorized)).
Proof.
  rewrite init_policy. intros [= <-].
  split; [apply policy_methods_upper|].
  intros request origin Ho [Hne Hlisted]%allowed_origin_nonempty.
  assert (process_request (policy kwargs) request = Some HTTPUnauthorized ↔
          request.(method) ∉ (policy kwargs).(allowed_methods)) as Hiff.
  { rewrite (process_request_cases _ _ origin) by done.
    rewrite decide_False by done.
    repeat case_decide; done. }
  split; [done|].
  intros allowed Hallowed Hlow Hdiff. apply Hiff. intros Hin.
  apply policy_methods_upper in Hin, Hallowed.
  rewrite Hlow, upper_lower, Hallowed in Hin. by rewrite Hlow in Hdiff.
Qed.

End Preflight.

(** ** Construction *)

Section Construction.
Context `{HashOrder}.

(** C7: [__init__] succeeds for every mapping of supplied options; a
    supplied value replaces the default as a whole ([merged]);
    [allowed_origins] holds the whitespace-separated tokens of
    [allow_origins]; [allowed_methods] holds the comma-separated fields
    of [allow_methods], stripped and uppercased; and the header dict has
    the six names, [access-control-allow-origin] being the members of
    [allowed_origins] joined by single spaces, the other five the merged
    option values as they are. *)
Theorem init_resolves kwargs :
  ∃ self, __init__ kwargs = Ok self ∧
    (∀ key v, kwargs !! key = Some v → merged kwargs key = v) ∧
    (∀ key, kwargs !! key = None →
       Some (merged kwargs key) = DEFAULT_CONFIGURATION !! key
       ∨ DEFAULT_CONFIGURATION !! key = None) ∧
    (∀ o, o ∈ allowed_origins self ↔
          o ∈ Py.split (merged kwargs "allow_origins")) ∧
    (∀ m, m ∈ allowed_methods self ↔
          ∃ t, t ∈ Py.split_on "," (merged kwargs "allow_methods") ∧
               m = Py.upper (Py.strip t)) ∧
    cors_headers self !! "access-control-allow-origin"
      = Some (Py.join " " (set_iter (allowed_origins self))) ∧
    set_iter (allowed_origins self) ≡ₚ elements (allowed_origins self) ∧
    cors_headers self !! "access-control-max-age"
      = Some (merged kwargs "max_age") ∧
    cors_headers self !! "access-control-allow-methods"
      = Some (merged kwargs "allow_methods") ∧
    cors_headers self !! "access-control-allow-headers"
      = Some (merged kwargs "allow_headers") ∧
    cors_headers self !! "access-control-expose-headers"
      = Some (merged kwargs "expose_headers") ∧
    cors_headers self !! "access-control-allow-credentials"
      = Some (merged kwargs "allow_credentials") ∧
    (∀ name, name ∈ dom (cors_headers self) ↔ name ∈ CORS_HEADER_NAMES).
Proof.
  exists (policy kwargs). split; [apply init_policy|].
  split; [|split].
  { intros key v Hv. unfold merged. by rewrite Hv. }
  { intros key Hnone. unfold merged. rewrite Hnone.
    destruct (DEFAULT_CONFIGURATION !! key); [by left|by right]. }
  split; [|split].
  { intros o. unfold policy, allowed_origins. apply elem_of_list_to_set. }
  { intros m. unfold policy, allowed_methods.
    rewrite elem_of_list_to_set, list_elem_of_fmap.
    split; intros (t & Ht1 & Ht2); by exists t. }
  repeat split; try reflexivity.
  - apply set_iter_perm.
  - by apply policy_cors_dom.
  - by apply policy_cors_dom.
Qed.

(** C9: [bool_from_string] without [strict] always returns: [True] when
    the stripped, lowercased text is one of 1, t, true, on, y, yes, and
    [False] otherwise (in particular for 0, f, false, off, n, no); with
    or without [strict] the two token sets give [True] and [False]; it
    raises exactly when [strict] is set and the text is in neither set;
    and [__init__], which calls it without [strict], never raises. *)
Theorem bool_from_string_total :
  (∀ subject,
     bool_from_string subject false =
     Ok (bool_decide (lowered subject ∈ ["1"; "t"; "true"; "on"; "y"; "yes"]))) ∧
  (∀ subject strict,
     lowered subject ∈ ["1"; "t"; "true"; "on"; "y"; "yes"] →
     bool_from_string subject strict = Ok true) ∧
  (∀ subject strict,
     lowered subject ∈ ["0"; "f"; "false"; "off"; "n"; "no"] →
     bool_from_string subject strict = Ok false) ∧
  (∀ subject strict,
     (∃ e, bool_from_string subject strict = Raise e) ↔
     strict = true ∧
     (lowered subject ∉ ["1"; "t"; "true"; "on"; "y"; "yes"]) ∧
     (lowered subject ∉ ["0"; "f"; "false"; "off"; "n"; "no"])) ∧
  (∀ kwargs, ∃ self, __init__ kwargs = Ok self).
Proof.
  split; [apply bool_from_string_nonstrict|].
  split; [|split; [|split]].
  - intros subject strict Hin. rewrite bool_from_string_eq.
    by rewrite bool_decide_true.
  - intros subject strict Hin. rewrite bool_from_string_eq.
    rewrite bool_decide_false, bool_decide_true; [done..|].
    intros Hin'. by apply (true_false_disjoint (lowered subject)).
  - intros subject strict. rewrite bool_from_string_eq.
    fold TRUE_STRINGS FALSE_STRINGS.
    repeat case_bool_decide; destruct strict; split;
      try (by intros [e [=]]); try (by intros (? & ? & ?)).
    by eexists.
  - intros kwargs. exists (policy kwargs). apply init_policy.
Qed.

End Construction.

(** ** The two-origin scenario *)

Section Scenario.
Context `{HashOrder}.

Lemma scenario_origins :
  elements (allowed_origins (policy scenario_kwargs))
  = ["http://a.example"; "http://b.example"].
Proof. by vm_compute. Qed.

(** C8, amended: with [allow_origins] set to the two origins and
    [allow_methods] to GET,POST, the request with [Origin:
    http://a.example] and method GET gets no decision, and
    [process_response] sets [access-control-allow-origin] to the two
    origins joined by one space in the order the set is iterated in:
    [http://a.example http://b.example] or
    [http://b.example http://a.example]. *)
Theorem scenario_pass_and_header :
  ∃ self, __init__ scenario_kwargs = Ok self ∧
    process_request self scenario_request = None ∧
    ∃ joined,
      joined = Py.join " " (set_iter (allowed_origins self)) ∧
      (joined = "http://a.example http://b.example" ∨
       joined = "http://b.example http://a.example") ∧
      ∀ req response,
        request response = Some scenario_request →
        headers_getall "access-control-allow-origin"
          (headers (process_response self req response)) = [joined].
Proof.
  exists (policy scenario_kwargs). split; [apply init_policy|].
  split; [by vm_compute|].
  eexists. split; [reflexivity|]. split.
  - pose proof (set_iter_perm (allowed_origins (policy scenario_kwargs))) as Hp.
    rewrite scenario_origins in Hp. symmetry in Hp.
    apply Permutation_length_2_inv in Hp as [->| ->]; [by left|by right].
  - intros req response Hresp.
    destruct (policy_decorates scenario_kwargs req response
                "access-control-allow-origin") as (v & Hv & ->).
    { right. exists scenario_request. split; [done|]. by eexists. }
    { by_compute. }
    by injection Hv as <-.
Qed.

End Scenario.

(** ** Concrete runs *)

(** C1 as stated fails: the request carries an [Origin] header (with an
    empty value), that origin is not listed and there is no wildcard,
    and yet the request is not rejected. *)
Lemma empty_origin_unlisted_not_rejected :
  @__init__ trie_order scenario_kwargs = Ok scenario_policy ∧
  (mk_request (Some "") "GET").(req_headers) !! "Origin" = Some "" ∧
  unlisted scenario_policy "" ∧
  @process_request trie_order scenario_policy (mk_request (Some "") "GET")
  = None.
Proof.
  split; [apply init_policy|]. split; [reflexivity|].
  split; [|by apply process_request_empty_origin].
  unfold unlisted. split; by_compute.
Qed.

Lemma process_request_unauthorized_iff_witness :
  (mk_request (Some "http://evil.example") "GET").(req_headers) !! "Origin"
    = Some "http://evil.example" ∧
  "http://evil.example" ≠ "" ∧
  @process_request trie_order scenario_policy
    (mk_request (Some "http://evil.example") "GET") = Some HTTPUnauthorized.
Proof.
  split; [reflexivity|]. split; [discriminate|].
  destruct (@process_request_unauthorized_iff trie_order scenario_policy
              (mk_request (Some "http://evil.example") "GET")
              "http://evil.example") as (_ & Hreject & _).
  - reflexivity.
  - discriminate.
  - apply Hreject. left. unfold unlisted. split; by_compute.
Defined.

(** C2 as stated fails: wildcard present, method OPTIONS allowed,
    [hijack_options] set, and the request (with an empty [Origin]) gets
    no preflight response. *)
Lemma empty_origin_options_not_hijacked :
  @__init__ trie_order ∅ = Ok default_policy ∧
  (mk_request (Some "") "OPTIONS").(req_headers) !! "Origin" = Some "" ∧
  "*" ∈ allowed_origins default_policy ∧
  "OPTIONS" ∈ allowed_methods default_policy ∧
  hijack_options default_policy = true ∧
  @process_request trie_order default_policy (mk_request (Some "") "OPTIONS")
  = None.
Proof.
  split; [apply init_policy|]. split; [reflexivity|].
  split; [by_compute|]. split; [by_compute|]. split; [reflexivity|].
  by apply process_request_empty_origin.
Qed.

Lemma process_request_preflight_witness :
  @__init__ trie_order ∅ = Ok default_policy ∧
  (mk_request (Some "http://x.example") "OPTIONS").(req_headers) !! "Origin"
    = Some "http://x.example" ∧
  ("http://x.example" ≠ "" ∧ "*" ∈ allowed_origins default_policy) ∧
  "OPTIONS" ∈ allowed_methods default_policy ∧
  hijack_options default_policy = true ∧
  ∃ r, @process_request trie_order default_policy
         (mk_request (Some "http://x.example") "OPTIONS") = Some r ∧
       r.(status_int) = 200%Z ∧ r.(body) = "" ∧
       headers_getall "access-control-allow-origin" r.(headers) = ["*"].
Proof.
  split; [apply init_policy|]. split; [reflexivity|].
  split; [split; [discriminate|by_compute]|].
  split; [by_compute|]. split; [reflexivity|].
  destruct (@process_request_preflight trie_order ∅ default_policy
              (mk_request (Some "http://x.example") "OPTIONS")
              "http://x.example") as (r & Hr & _ & Hst & Hb & Hsix).
  - apply init_policy.
  - reflexivity.
  - right. split; [discriminate|by_compute].
  - by_compute.
  - reflexivity.
  - reflexivity.
  - exists r. repeat split; try done.
    destruct (Hsix "access-control-allow-origin") as (v & Hv & ->);
      [by_compute|].
    vm_compute in Hv. by injection Hv as <-.
Defined.

Lemma process_request_no_origin_witness :
  (mk_request None "DELETE").(req_headers) !! "Origin" = None ∧
  @process_request trie_order scenario_policy (mk_request None "DELETE") = None.
Proof.
  split; [reflexivity|].
  apply (@process_request_no_origin trie_order). reflexivity.
Defined.

Lemma process_response_decision_witness :
  @__init__ trie_order ∅ = Ok default_policy ∧
  @process_response trie_order default_policy (mk_request None "GET")
    (response_to (mk_request None "GET"))
  = response_to (mk_request None "GET") ∧
  headers_getall "access-control-max-age"
    (@process_response trie_order default_policy scenario_request
       (response_to scenario_request)).(headers) = ["3600"].
Proof.
  split; [apply init_policy|].
  destruct (@process_response_decision trie_order ∅ default_policy
              (mk_request None "GET") (response_to (mk_request None "GET"))
              (init_policy ∅)) as [_ Hskip].
  destruct (@process_response_decision trie_order ∅ default_policy
              scenario_request (response_to scenario_request)
              (init_policy ∅)) as [Hinject _].
  split.
  - apply Hskip. exists (mk_request None "GET"). by split.
  - destruct Hinject as [Hsix _].
    { right. exists scenario_request. split; [done|]. by eexists. }
    destruct (Hsix "access-control-max-age") as (v & Hv & ->); [by_compute|].
    vm_compute in Hv. by injection Hv as <-.
Defined.

(** C5 as stated fails: under the default configuration the wildcard
    allows the (empty) origin, [get] is the lowercase spelling of the
    allowed [GET], and the request is not rejected. *)
Lemma empty_origin_lowercase_not_rejected :
  @__init__ trie_order ∅ = Ok default_policy ∧
  (mk_request (Some "") "get").(req_headers) !! "Origin" = Some "" ∧
  "*" ∈ allowed_origins default_policy ∧
  "GET" ∈ allowed_methods default_policy ∧
  "get" = Py.lower "GET" ∧
  @process_request trie_order default_policy (mk_request (Some "") "get")
  = None.
Proof.
  split; [apply init_policy|]. split; [reflexivity|].
  split; [by_compute|]. split; [by_compute|]. split; [reflexivity|].
  by apply process_request_empty_origin.
Qed.

Lemma process_request_lowercase_method_witness :
  @__init__ trie_order ∅ = Ok default_policy ∧
  @process_request trie_order default_policy
    (mk_request (Some "http://x.example") "get") = Some HTTPUnauthorized.
Proof.
  split; [apply init_policy|].
  destruct (@process_request_lowercase_method trie_order ∅ default_policy
              (init_policy ∅)) as [_ Hreq].
  destruct (Hreq (mk_request (Some "http://x.example") "get")
              "http://x.example") as [_ Hlow].
  - reflexivity.
  - right. split; [discriminate|by_compute].
  - apply (Hlow "GET"); [by_compute|reflexivity|discriminate].
Defined.

(** C8 as stated fails: when the set is iterated the other way the
    header reads [http://b.example http://a.example]. *)
Lemma scenario_header_other_order :
  @__init__ reverse_order scenario_kwargs
    = Ok (@policy reverse_order scenario_kwargs) ∧
  @process_request reverse_order (@policy reverse_order scenario_kwargs)
    scenario_request = None ∧
  headers_getall "access-control-allow-origin"
    (headers (@process_response reverse_order
                (@policy reverse_order scenario_kwargs) scenario_request
                (response_to scenario_request)))
  = ["http://b.example http://a.example"].
Proof. split; [apply init_policy|]. split; by vm_compute. Qed.

(** * Part IV: further properties of the code *)

(** ** Whitespace and case *)

Lemma isspace_toupper c : Py.isspace (Py.toupper c) = Py.isspace c.
Proof. by destruct c as [[] [] [] [] [] [] [] []]. Qed.

Lemma isspace_tolower c : Py.isspace (Py.tolower c) = Py.isspace c.
Proof. by destruct c as [[] [] [] [] [] [] [] []]. Qed.

Lemma tolower_toupper c : Py.tolower (Py.toupper c) = Py.tolower c.
Proof. by destruct c as [[] [] [] [] [] [] [] []]. Qed.

Lemma lower_upper s : Py.lower (Py.upper s) = Py.lower s.
Proof.
  induction s as [|c s IH]; [done|].
  cbn. by rewrite tolower_toupper, IH.
Qed.

Section MapChars.
Variable f : ascii → ascii.
Hypothesis f_space : ∀ c, Py.isspace (f c) = Py.isspace c.

Lemma lstrip_map_chars s :
  Py.lstrip (Py.map_chars f s) = Py.map_chars f (Py.lstrip s).
Proof.
  induction s as [|c s IH]; [done|].
  cbn. rewrite f_space. by destruct (Py.isspace c).
Qed.

Lemma rstrip_map_chars s :
  Py.rstrip (Py.map_chars f s) = Py.map_chars f (Py.rstrip s).
Proof.
  induction s as [|c s IH]; [done|].
  cbn. rewrite IH, f_space.
  destruct (Py.rstrip s); [by destruct (Py.isspace c)|done].
Qed.

Lemma strip_map_chars s :
  Py.strip (Py.map_chars f s) = Py.map_chars f (Py.strip s).
Proof. unfold Py.strip. by rewrite lstrip_map_chars, rstrip_map_chars. Qed.

End MapChars.

Lemma strip_upper s : Py.strip (Py.upper s) = Py.upper (Py.strip s).
Proof. apply strip_map_chars, isspace_toupper. Qed.

Lemma lstrip_all_space s : all_space s = true → Py.lstrip s = "".
Proof.
  induction s as [|c s IH]; [done|].
  cbn. intros [-> Hs]%andb_true_iff. by apply IH.
Qed.

Lemma rstrip_all_space s : all_space s = true → Py.rstrip s = "".
Proof.
  induction s as [|c s IH]; [done|].
  cbn. intros [-> Hs]%andb_true_iff. by rewrite IH.
Qed.

Lemma append_cons c s t : String c s +:+ t = String c (s +:+ t).
Proof. reflexivity. Qed.

Lemma lstrip_app_space pre s :
  all_space pre = true → Py.lstrip (pre +:+ s) = Py.lstrip s.
Proof.
  induction pre as [|c pre IH]; [done|].
  rewrite append_cons. cbn. intros [-> Hs]%andb_true_iff. by apply IH.
Qed.

Lemma rstrip_app_space s post :
  all_space post = true → Py.rstrip (s +:+ post) = Py.rstrip s.
Proof.
  intros Hpost. induction s as [|c s IH]; [by apply rstrip_all_space|].
  rewrite append_cons. cbn. by rewrite IH.
Qed.

Lemma strip_app_space s post :
  all_space post = true → Py.strip (s +:+ post) = Py.strip s.
Proof.
  intros Hpost. unfold Py.strip. induction s as [|c s IH].
  - cbn. by rewrite lstrip_all_space.
  - rewrite append_cons. cbn [Py.lstrip]. destruct (Py.isspace c); [done|].
    rewrite <-append_cons. by apply rstrip_app_space.
Qed.

(** Whitespace around a text does not survive [strip]. *)
Lemma strip_padding pre s post :
  all_space pre = true → all_space post = true →
  Py.strip (pre +:+ s +:+ post) = Py.strip s.
Proof.
  intros Hpre Hpost. unfold Py.strip at 1. rewrite lstrip_app_space by done.
  by apply strip_app_space.
Qed.

Lemma rstrip_cons c s :
  Py.rstrip (String c s) =
  match Py.rstrip s with
  | EmptyString => if Py.isspace c then EmptyString else String c EmptyString
  | t => String c t
  end.
Proof. reflexivity. Qed.

Lemma rstrip_idemp s : Py.rstrip (Py.rstrip s) = Py.rstrip s.
Proof.
  induction s as [|c s IH]; [done|].
  rewrite (rstrip_cons c s). destruct (Py.rstrip s) as [|c' t] eqn:Hs.
  - destruct (Py.isspace c) eqn:Hc; [done|]. cbn. by rewrite Hc.
  - by rewrite rstrip_cons, IH.
Qed.

Lemma lstrip_rstrip_lstrip s :
  Py.lstrip (Py.rstrip (Py.lstrip s)) = Py.rstrip (Py.lstrip s).
Proof.
  induction s as [|c s IH]; [done|].
  cbn [Py.lstrip]. destruct (Py.isspace c) eqn:Hc; [done|].
  rewrite rstrip_cons, Hc. destruct (Py.rstrip s); cbn; by rewrite Hc.
Qed.

Lemma strip_idemp s : Py.strip (Py.strip s) = Py.strip s.
Proof.
  unfold Py.strip. by rewrite lstrip_rstrip_lstrip, rstrip_idemp.
Qed.

(** ** Tokens *)

Lemma split_cons c s :
  Py.split (String c s) =
  if Py.isspace c then Py.split s
  else match s with
       | EmptyString => [String c EmptyString]
       | String c' _ =>
           if Py.isspace c' then String c EmptyString :: Py.split s
           else match Py.split s with
                | t :: ts => String c t :: ts
                | [] => [String c EmptyString]
                end
       end.
Proof. reflexivity. Qed.

(** Every token of [split] is a non-empty text without whitespace. *)
Lemma split_tokens s :
  Forall (λ t, t ≠ "" ∧ no_space t = true) (Py.split s).
Proof.
  induction s as [|c s IH]; [by constructor|].
  rewrite split_cons. destruct (Py.isspace c) eqn:Hc; [done|].
  assert (no_space (String c "") = true) as Hone by (cbn; by rewrite Hc).
  destruct s as [|c' s']; [by repeat constructor|].
  destruct (Py.isspace c'); [by constructor|].
  destruct (Py.split (String c' s')) as [|t ts]; [by repeat constructor|].
  apply Forall_cons in IH as [[_ Ht] Hts].
  constructor; [|done]. split; [done|]. cbn. by rewrite Hc, Ht.
Qed.

Lemma split_token_of s t : t ∈ Py.split s → t ≠ "" ∧ no_space t = true.
Proof.
  intros Ht. pose proof (split_tokens s) as Hall.
  rewrite Forall_forall in Hall. by apply Hall.
Qed.

Lemma split_nil_iff s : Py.split s = [] ↔ all_space s = true.
Proof.
  induction s as [|c s IH]; [done|].
  rewrite split_cons. cbn [all_space].
  destruct (Py.isspace c); [done|]. cbn. split; [|done].
  destruct s as [|c' s']; [done|].
  destruct (Py.isspace c'); [done|].
  by destruct (Py.split (String c' s')).
Qed.

Lemma split_token t : t ≠ "" → no_space t = true → Py.split t = [t].
Proof.
  induction t as [|c t IH]; [done|]. intros _ [Hc Ht]%andb_true_iff.
  apply negb_true_iff in Hc. rewrite split_cons, Hc.
  destruct t as [|c' t']; [done|].
  pose proof Ht as [Hc' _]%andb_true_iff. apply negb_true_iff in Hc'.
  by rewrite Hc', IH.
Qed.

Lemma split_token_space t c0 r :
  t ≠ "" → no_space t = true → Py.isspace c0 = true →
  Py.split (t +:+ String c0 r) = t :: Py.split r.
Proof.
  intros Hne Hns Hc0. induction t as [|c t IH]; [done|].
  apply andb_true_iff in Hns as [Hc Ht]. apply negb_true_iff in Hc.
  rewrite append_cons, split_cons, Hc.
  destruct t as [|c' t'].
  - change ("" +:+ String c0 r) with (String c0 r). cbv beta iota.
    by rewrite Hc0, split_cons, Hc0.
  - pose proof Ht as [Hc' _]%andb_true_iff. apply negb_true_iff in Hc'.
    rewrite append_cons. cbv beta iota. rewrite Hc', <-append_cons.
    by rewrite IH.
Qed.

(** Tokens joined by single spaces split into the same tokens. *)
Lemma split_join l :
  Forall (λ t, t ≠ "" ∧ no_space t = true) l →
  Py.split (Py.join " " l) = l.
Proof.
  induction l as [|t l IH]; [done|].
  intros [[Hne Hns] Hl]%Forall_cons.
  destruct l as [|t2 l]; [by apply split_token|].
  rewrite join_cons.
  change (" " +:+ Py.join " " (t2 :: l))
    with (String " " (Py.join " " (t2 :: l))).
  rewrite split_token_space by done. by rewrite IH.
Qed.

Lemma no_space_false_iff s c :
  no_space (String c s) = false ↔ Py.isspace c = true ∨ no_space s = false.
Proof.
  cbn. rewrite andb_false_iff, negb_false_iff. tauto.
Qed.

(** ** bool_from_string, further *)


Lemma lowered_padding_case pre s post :
  all_space pre = true → all_space post = true →
  lowered (PyStr (pre +:+ Py.upper s +:+ post)) = lowered (PyStr s).
Proof.
  intros Hpre Hpost. unfold lowered. cbn [str].
  by rewrite strip_padding, strip_upper, lower_upper.
Qed.

(** X1: [bool_from_string] looks at its text through [strip] and
    [lower] only: uppercasing the text and putting whitespace around it
    changes nothing, without [strict], and with [strict] whenever the
    text is recognised. *)
Theorem bool_from_string_padding_case pre s post :
  all_space pre = true → all_space post = true →
  bool_from_string (PyStr (pre +:+ Py.upper s +:+ post)) false
  = bool_from_string (PyStr s) false ∧
  (∀ b, bool_from_string (PyStr s) true = Ok b →
        bool_from_string (PyStr (pre +:+ Py.upper s +:+ post)) true = Ok b).
Proof.
  intros Hpre Hpost. rewrite !bool_from_string_eq.
  rewrite lowered_padding_case by done. split; [done|].
  intros b. by repeat case_bool_decide.
Qed.


(** ** Construction, further *)

Section Options.
Context `{HashOrder}.

Lemma list_to_set_empty_iff (l : list string) :
  list_to_set (C:=gset string) l = ∅ ↔ l = [].
Proof.
  split; [|by intros ->].
  destruct l as [|x l]; [done|]. intros Hempty.
  assert (x ∈ (∅ : gset string)) as Hx.
  { rewrite <-Hempty. apply elem_of_list_to_set. by left. }
  by apply not_elem_of_empty in Hx.
Qed.

(** X3: [__init__] reads the seven options and nothing else: two
    mappings that agree on them (whatever other keys they hold) build
    the same instance. *)
Theorem init_reads_options_only kwargs1 kwargs2 :
  (∀ key, key ∈ OPTION_NAMES → kwargs1 !! key = kwargs2 !! key) →
  __init__ kwargs1 = __init__ kwargs2.
Proof.
  intros Hagree. rewrite !init_policy. f_equal.
  assert (∀ key, key ∈ OPTION_NAMES → merged kwargs1 key = merged kwargs2 key)
    as Hm.
  { intros key Hkey. unfold merged. by rewrite (Hagree key Hkey). }
  unfold policy.
  rewrite (Hm "allow_origins"), (Hm "allow_methods"), (Hm "hijack_options"),
    (Hm "max_age"), (Hm "allow_headers"), (Hm "expose_headers"),
    (Hm "allow_credentials") by by_compute.
  reflexivity.
Qed.

(** X4: [allowed_origins] is empty exactly when [allow_origins] holds
    whitespace only (the empty text included), and then every request
    with a non-empty [Origin] is rejected, whatever its method. *)
Theorem init_blank_origins kwargs self :
  __init__ kwargs = Ok self →
  (allowed_origins self = ∅ ↔
   all_space (merged kwargs "allow_origins") = true) ∧
  (allowed_origins self = ∅ →
   ∀ req origin, req.(req_headers) !! "Origin" = Some origin → origin ≠ "" →
     process_request self req = Some HTTPUnauthorized).
Proof.
  rewrite init_policy. intros [= <-]. split.
  - unfold policy, allowed_origins.
    by rewrite list_to_set_empty_iff, split_nil_iff.
  - intros Hempty req origin Ho Hne.
    rewrite (process_request_cases _ _ origin) by done.
    rewrite decide_True; [done|].
    unfold unlisted. rewrite Hempty. split; apply not_elem_of_empty.
Qed.

(** X5: every member of [allowed_origins] is a non-empty text without
    whitespace; so an [Origin] that holds whitespace is never listed,
    and without the wildcard it is rejected. *)
Theorem init_origins_tokens kwargs self :
  __init__ kwargs = Ok self →
  (∀ o, o ∈ allowed_origins self → o ≠ "" ∧ no_space o = true) ∧
  (∀ req origin,
     req.(req_headers) !! "Origin" = Some origin → no_space origin = false →
     "*" ∉ allowed_origins self →
     process_request self req = Some HTTPUnauthorized).
Proof.
  rewrite init_policy. intros [= <-].
  assert (∀ o, o ∈ allowed_origins (policy kwargs) →
               o ≠ "" ∧ no_space o = true) as Htok.
  { intros o. unfold policy, allowed_origins. rewrite elem_of_list_to_set.
    apply split_token_of. }
  split; [done|].
  intros req origin Ho Hsp Hstar.
  assert (origin ≠ "") as Hne by (by intros ->).
  rewrite (process_request_cases _ _ origin) by done.
  rewrite decide_True; [done|]. split; [|done].
  intros [_ Hns]%Htok. congruence.
Qed.

(** X6: [allowed_methods] is never empty, and each member is in normal
    form: stripped and uppercased.  For the empty [allow_methods] the
    set holds the empty text alone. *)
Theorem init_methods_normal kwargs self :
  __init__ kwargs = Ok self →
  allowed_methods self ≠ ∅ ∧
  (∀ m, m ∈ allowed_methods self → Py.strip m = m ∧ Py.upper m = m) ∧
  (merged kwargs "allow_methods" = "" → allowed_methods self = {[ "" ]}).
Proof.
  rewrite init_policy. intros [= <-]. unfold policy, allowed_methods.
  split; [|split].
  - destruct (split_on_cons "," (merged kwargs "allow_methods"))
      as (t & ts & ->).
    by intros [=]%list_to_set_empty_iff.
  - intros m. rewrite elem_of_list_to_set.
    intros (t & -> & _)%list_elem_of_fmap.
    by rewrite strip_upper, strip_idemp, upper_idemp.
  - intros ->. cbn. apply (right_id_L ∅ (∪)).
Qed.

(** X7: the advertised origin header parses back to the enforced set:
    the value of [access-control-allow-origin], split on whitespace,
    has exactly the members of [allowed_origins], each of them once,
    whatever the order the set was iterated in. *)
Theorem init_origin_header_round_trip kwargs self :
  __init__ kwargs = Ok self →
  ∃ v, cors_headers self !! "access-control-allow-origin" = Some v ∧
       list_to_set (Py.split v) = allowed_origins self ∧
       NoDup (Py.split v).
Proof.
  rewrite init_policy. intros [= <-].
  set (origins := allowed_origins (policy kwargs)).
  exists (Py.join " " (set_iter origins)). split; [reflexivity|].
  rewrite split_join.
  - split; [|rewrite set_iter_perm; apply NoDup_elements].
    apply set_eq. intros o.
    by rewrite elem_of_list_to_set, set_iter_perm, elem_of_elements.
  - apply Forall_forall. intros o. rewrite set_iter_perm, elem_of_elements.
    unfold origins, policy, allowed_origins. rewrite elem_of_list_to_set.
    apply split_token_of.
Qed.

End Options.

(** ** The two phases, further *)

Section Phases.
Context `{HashOrder}.
Implicit Types (self : CorsMiddleware) (req : Request) (response : Response).

Lemma named_cors_names kwargs kv :
  named (dict_iter (cors_headers (policy kwargs))).*1 kv ↔
  named CORS_HEADER_NAMES kv.
Proof.
  unfold named. rewrite !Exists_exists.
  assert (∀ k, k ∈ (dict_iter (cors_headers (policy kwargs))).*1 ↔
               k ∈ CORS_HEADER_NAMES) as Hk.
  { intros k. rewrite <-policy_cors_dom, elem_of_dom, list_elem_of_fmap.
    split.
    - intros ([k' v] & -> & Hin). rewrite dict_iter_perm in Hin.
      apply elem_of_map_to_list in Hin. by exists v.
    - intros [v Hv]. exists (k, v). split; [done|].
      rewrite dict_iter_perm. by apply elem_of_map_to_list. }
  split; intros (k & Hin & Hsame); exists k; (split; [by apply Hk|done]).
Qed.

(** X8: when [process_response] decorates a response, for an instance
    built by [__init__], the headers that are not CORS headers (under
    any spelling of the six names) stay, in their order, and the six
    items of the header dict come after them: nothing else is added and
    nothing else removed. *)
Theorem process_response_appends kwargs self req response :
  __init__ kwargs = Ok self → cors_applies response →
  ∃ six, six ≡ₚ map_to_list (cors_headers self) ∧ length six = 6 ∧
    headers (process_response self req response) =
    filter (λ kv, ¬ named CORS_HEADER_NAMES kv) (headers response) ++ six.
Proof.
  rewrite init_policy. intros [= <-] Hc.
  exists (dict_iter (cors_headers (policy kwargs))).
  split; [apply dict_iter_perm|]. split.
  - by rewrite (Permutation_length (policy_cors_items kwargs)).
  - rewrite process_response_inject by done. cbn [headers].
    rewrite headers_update_distinct by apply policy_distinct_names.
    f_equal. apply filter_ext_in. intros kv _.
    by rewrite named_cors_names.
Qed.

(** X9: a response that [process_request] returns is the 401 response
    or, for method OPTIONS with [hijack_options] set, the decorated
    fresh 200 response with an empty body; in both cases the request
    carries a non-empty [Origin] and the response has no originating
    request. *)
Theorem process_request_outcomes self req r :
  process_request self req = Some r →
  (r = HTTPUnauthorized ∨
   (r = process_response self req webob_Response ∧
    req.(method) = "OPTIONS" ∧ hijack_options self = true ∧
    r.(status_int) = 200%Z ∧ r.(body) = "")) ∧
  r.(request) = None ∧
  ∃ origin, req.(req_headers) !! "Origin" = Some origin ∧ origin ≠ "".
Proof.
  intros Hr.
  destruct (req_headers req !! "Origin") as [origin|] eqn:Ho;
    [|by unfold process_request in Hr; rewrite Ho in Hr].
  destruct (decide (origin = "")) as [->|Hne];
    [by rewrite process_request_empty_origin in Hr|].
  rewrite (process_request_cases _ _ origin) in Hr by done.
  assert (∃ o, Some origin = Some o ∧ o ≠ "") as Hcarries
    by (exists origin; by split).
  repeat case_decide; try done; injection Hr as <-.
  - split; [by left|]. by split.
  - split; [by left|]. by split.
  - match goal with Hh : _ ∧ _ |- _ => destruct Hh as [Hhij Hopt] end.
    split; [right; by repeat split|]. by split.
Qed.

(** X10: when the [hijack_options] text is none of the true tokens,
    [process_request] never answers itself with a 200: the result is no
    decision or the 401 response, and a request with an allowed origin
    and an allowed method, OPTIONS included, goes on. *)
Theorem process_request_no_hijack kwargs self :
  __init__ kwargs = Ok self →
  Py.lower (Py.strip (merged kwargs "hijack_options")) ∉ TRUE_STRINGS →
  (∀ req, process_request self req = None
          ∨ process_request self req = Some HTTPUnauthorized) ∧
  (∀ req origin,
     req.(req_headers) !! "Origin" = Some origin →
     ¬ unlisted self origin → req.(method) ∈ allowed_methods self →
     process_request self req = None).
Proof.
  rewrite init_policy. intros [= <-] Hnot.
  assert (hijack_options (policy kwargs) = false) as Hoff.
  { unfold policy, hijack_options. by apply bool_decide_eq_false. }
  split.
  - intros req.
    destruct (req_headers req !! "Origin") as [origin|] eqn:Ho;
      [|left; unfold process_request; by rewrite Ho].
    destruct (decide (origin = "")) as [->|Hne];
      [left; by apply process_request_empty_origin|].
    rewrite (process_request_cases _ _ origin), Hoff by done.
    repeat case_decide; try (by left); try (by right).
    exfalso. intuition discriminate.
  - intros req origin Ho Hlisted Hm.
    destruct (decide (origin = "")) as [->|Hne];
      [by apply process_request_empty_origin|].
    rewrite (process_request_cases _ _ origin), Hoff by done.
    repeat case_decide; try done. exfalso. intuition discriminate.
Qed.

(** X11: a request whose [Origin] header is empty is not gated, yet the
    response that answers it is decorated: [process_request] gives no
    decision whatever the configuration, and [process_response] gives
    each of the six names its precomputed value. *)
Theorem empty_origin_passes_and_is_decorated kwargs self req req' response :
  __init__ kwargs = Ok self →
  req.(req_headers) !! "Origin" = Some "" →
  response.(request) = Some req →
  process_request self req = None ∧
  ∀ name, name ∈ CORS_HEADER_NAMES →
    ∃ v, cors_headers self !! name = Some v ∧
         headers_getall name (headers (process_response self req' response))
         = [v].
Proof.
  rewrite init_policy. intros [= <-] Ho Hresp.
  split; [by apply process_request_empty_origin|].
  intros name. apply policy_decorates. right. exists req. by rewrite Ho.
Qed.

(** X12: with the wildcard among the allowed origins the origin itself
    plays no part: two requests with non-empty [Origin] headers and the
    same method get the same result. *)
Theorem process_request_wildcard self req1 req2 origin1 origin2 :
  "*" ∈ allowed_origins self →
  req1.(req_headers) !! "Origin" = Some origin1 → origin1 ≠ "" →
  req2.(req_headers) !! "Origin" = Some origin2 → origin2 ≠ "" →
  req1.(method) = req2.(method) →
  process_request self req1 = process_request self req2.
Proof.
  intros Hstar Ho1 Hne1 Ho2 Hne2 Hm.
  rewrite (process_request_cases _ _ origin1), (process_request_cases _ _ origin2)
    by done.
  rewrite (decide_False (P:=unlisted self origin1)),
    (decide_False (P:=unlisted self origin2)) by (unfold unlisted; tauto).
  rewrite Hm. by repeat case_decide.
Qed.

End Phases.

(** ** Concrete runs of the further properties *)

Lemma bool_from_string_padding_case_witness :
  all_space " " = true ∧ all_space "  " = true ∧
  bool_from_string (PyStr (" " +:+ Py.upper "yes" +:+ "  ")) false
  = bool_from_string (PyStr "yes") false.
Proof.
  split; [reflexivity|]. split; [reflexivity|].
  destruct (bool_from_string_padding_case " " "yes" "  ") as [Hsame _];
    [reflexivity..|exact Hsame].
Defined.

Lemma init_reads_options_only_witness :
  (∀ key, key ∈ OPTION_NAMES →
     (∅ : gmap string string) !! key
     = ({[ "application" := "keystone" ]} : gmap string string) !! key) ∧
  @__init__ trie_order ∅ = @__init__ trie_order {[ "application" := "keystone" ]}.
Proof.
  assert (∀ key, key ∈ OPTION_NAMES →
     (∅ : gmap string string) !! key
     = ({[ "application" := "keystone" ]} : gmap string string) !! key) as Hagree.
  { intros key. unfold OPTION_NAMES. rewrite !elem_of_cons, elem_of_nil.
    intros [->|[->|[->|[->|[->|[->|[->|[]]]]]]]]; reflexivity. }
  split; [exact Hagree|].
  exact (@init_reads_options_only trie_order _ _ Hagree).
Defined.

Lemma init_blank_origins_witness :
  @__init__ trie_order {[ "allow_origins" := "  " ]}
    = Ok (@policy trie_order {[ "allow_origins" := "  " ]}) ∧
  allowed_origins (@policy trie_order {[ "allow_origins" := "  " ]}) = ∅ ∧
  @process_request trie_order (@policy trie_order {[ "allow_origins" := "  " ]})
    scenario_request = Some HTTPUnauthorized.
Proof.
  split; [apply init_policy|].
  destruct (@init_blank_origins trie_order {[ "allow_origins" := "  " ]} _
              (init_policy _)) as [Hiff Hreject].
  assert (allowed_origins (@policy trie_order {[ "allow_origins" := "  " ]}) = ∅)
    as Hempty by (apply Hiff; reflexivity).
  split; [exact Hempty|].
  apply (Hreject Hempty scenario_request "http://a.example");
    [reflexivity|discriminate].
Defined.

Lemma init_origins_tokens_witness :
  @__init__ trie_order scenario_kwargs = Ok scenario_policy ∧
  @process_request trie_order scenario_policy
    (mk_request (Some "http://a.example http://b.example") "GET")
  = Some HTTPUnauthorized.
Proof.
  split; [apply init_policy|].
  destruct (@init_origins_tokens trie_order scenario_kwargs scenario_policy
              (init_policy _)) as [_ Hreject].
  apply (Hreject _ "http://a.example http://b.example");
    [reflexivity|reflexivity|by_compute].
Defined.

Lemma init_methods_normal_witness :
  @__init__ trie_order {[ "allow_methods" := "" ]}
    = Ok (@policy trie_order {[ "allow_methods" := "" ]}) ∧
  allowed_methods (@policy trie_order {[ "allow_methods" := "" ]}) = {[ "" ]}.
Proof.
  split; [apply init_policy|].
  destruct (@init_methods_normal trie_order {[ "allow_methods" := "" ]} _
              (init_policy _)) as (_ & _ & Hempty).
  apply Hempty. reflexivity.
Defined.

Lemma init_origin_header_round_trip_witness :
  @__init__ reverse_order scenario_kwargs
    = Ok (@policy reverse_order scenario_kwargs) ∧
  ∃ v, cors_headers (@policy reverse_order scenario_kwargs)
         !! "access-control-allow-origin" = Some v ∧
       list_to_set (Py.split v)
       = allowed_origins (@policy reverse_order scenario_kwargs).
Proof.
  split; [apply init_policy|].
  destruct (@init_origin_header_round_trip reverse_order scenario_kwargs _
              (init_policy _)) as (v & Hv & Hset & _).
  exists v. split; [exact Hv|exact Hset].
Defined.

Lemma process_response_appends_witness :
  @__init__ trie_order ∅ = Ok default_policy ∧
  cors_applies (response_to scenario_request) ∧
  length (headers (@process_response trie_order default_policy scenario_request
                     (response_to scenario_request))) = 8.
Proof.
  assert (cors_applies (response_to scenario_request)) as Hc.
  { right. exists scenario_request. split; [reflexivity|by eexists]. }
  split; [apply init_policy|]. split; [exact Hc|].
  destruct (@process_response_appends trie_order ∅ default_policy
              scenario_request (response_to scenario_request)
              (init_policy _) Hc) as (six & _ & Hlen & ->).
  rewrite length_app, Hlen. reflexivity.
Defined.

Lemma process_request_outcomes_witness :
  @process_request trie_order scenario_policy
    (mk_request (Some "http://evil.example") "GET") = Some HTTPUnauthorized ∧
  request HTTPUnauthorized = None.
Proof.
  assert (@process_request trie_order scenario_policy
            (mk_request (Some "http://evil.example") "GET")
          = Some HTTPUnauthorized) as Hr by (by vm_compute).
  split; [exact Hr|].
  exact (proj1 (proj2 (@process_request_outcomes trie_order _ _ _ Hr))).
Defined.

Lemma process_request_no_hijack_witness :
  @__init__ trie_order {[ "hijack_options" := "off" ]}
    = Ok (@policy trie_order {[ "hijack_options" := "off" ]}) ∧
  (Py.lower (Py.strip (merged {[ "hijack_options" := "off" ]} "hijack_options"))
    ∉ TRUE_STRINGS) ∧
  @process_request trie_order (@policy trie_order {[ "hijack_options" := "off" ]})
    (mk_request (Some "http://x.example") "OPTIONS") = None.
Proof.
  assert (Py.lower (Py.strip
            (merged {[ "hijack_options" := "off" ]} "hijack_options"))
          ∉ TRUE_STRINGS) as Hoff by by_compute.
  split; [apply init_policy|]. split; [exact Hoff|].
  destruct (@process_request_no_hijack trie_order
              {[ "hijack_options" := "off" ]} _ (init_policy _) Hoff)
    as [_ Hpass].
  apply (Hpass _ "http://x.example"); [reflexivity| |by_compute].
  unfold unlisted. intros [_ Hstar]. apply Hstar. by_compute.
Defined.

Lemma empty_origin_passes_and_is_decorated_witness :
  @__init__ trie_order scenario_kwargs = Ok scenario_policy ∧
  (mk_request (Some "") "GET").(req_headers) !! "Origin" = Some "" ∧
  @process_request trie_order scenario_policy (mk_request (Some "") "GET")
  = None.
Proof.
  split; [apply init_policy|]. split; [reflexivity|].
  destruct (@empty_origin_passes_and_is_decorated trie_order scenario_kwargs
              scenario_policy (mk_request (Some "") "GET")
              (mk_request (Some "") "GET")
              (response_to (mk_request (Some "") "GET"))
              (init_policy _) eq_refl eq_refl) as [Hpass _].
  exact Hpass.
Defined.

Lemma process_request_wildcard_witness :
  "*" ∈ allowed_origins default_policy ∧
  @process_request trie_order default_policy
    (mk_request (Some "http://a.example") "PUT")
  = @process_request trie_order default_policy
      (mk_request (Some "http://b.example") "PUT").
Proof.
  assert ("*" ∈ allowed_origins default_policy) as Hstar by by_compute.
  split; [exact Hstar|].
  apply (@process_request_wildcard trie_order default_policy _ _
           "http://a.example" "http://b.example" Hstar);
    [reflexivity|discriminate|reflexivity|discriminate|reflexivity].
Defined.
